(** * use-codemirror: a shallow embedding of [src/useCodeMirror.tsx]

    The hook binds a CodeMirror editor to a React component.  The adapter
    code (the [CodeMirrorInstance] class, the configuration defaulting and
    the mount / unmount life cycle of [useCodeMirror]) is embedded as Rocq
    functions.  The CodeMirror library is an external collaborator; it is
    represented by

    - a store of document objects, where the index of a document stands
      for its identity (cursor, selection and undo history travel with the
      object);
    - an editor value holding the displayed document and the live options,
      with [getOption] reading back what the constructor and [setOption]
      stored;
    - the trace of the calls the adapter makes, in order.

    JavaScript objects used as dictionaries ([docs], [modeAliases], a
    configuration) are finite maps over their own properties; names
    inherited from [Object.prototype] are not modelled.  Numbers are
    integers. *)

From Stdlib Require Import ZArith Ascii String.
From stdpp Require Import gmap strings list fin_maps.

Local Open Scope string_scope.
Local Open Scope Z_scope.
Local Open Scope list_scope.

(** ** JavaScript values that travel through a configuration object *)

(** Configuration values are compared by the adapter with [!==] and tested
    for truthiness, so primitives are kept apart from objects, and objects
    are known by reference only. *)
Inductive JsValue : Type :=
| VUndefined
| VNull
| VBool (b : bool)
| VNum (n : Z)
| VStr (s : string)
| VObj (r : nat)                (* an object supplied by the host, by reference *)
| VDefaultMatchTags             (* the module constant [defaultMatchTagsConfig] *)
| VMergedKeys (user : JsValue).   (* [{...defaultExtraKeysConfig, ...extraKeys}],
                                   memoised on [extraKeys] *)

#[global] Instance value_eq_dec : EqDecision JsValue.
Proof. solve_decision. Defined.

(** [!!v] of JavaScript. *)
Definition truthy (v : JsValue) : bool :=
  match v with
  | VUndefined | VNull => false
  | VBool b => b
  | VNum n => negb (n =? 0)
  | VStr s => negb (String.eqb s "")
  | VObj _ | VDefaultMatchTags | VMergedKeys _ => true
  end.

(** [a !== b] of JavaScript on the values above. *)
Definition strict_neq (a b : JsValue) : bool := negb (bool_decide (a = b)).

(** [a || b] of JavaScript. *)
Definition js_or (a b : JsValue) : JsValue := if truthy a then a else b.

(** A configuration object ([CodeMirror.EditorConfiguration]): own
    properties only, keyed by name.  A key that is absent reads as
    [undefined]. *)
Abbreviation Config := (gmap string JsValue).

Definition prop (c : Config) (k : string) : JsValue := default VUndefined (c !! k).

(** ** Strings *)

(** [s.split(sep)] for a one-character separator. *)
Fixpoint split (sep : ascii) (s : string) : list string :=
  match s with
  | EmptyString => [EmptyString]
  | String c r =>
      if Ascii.eqb c sep then EmptyString :: split sep r
      else match split sep r with
           | x :: xs => String c x :: xs
           | [] => [String c EmptyString]
           end
  end.

Definition CR : ascii := Ascii.ascii_of_nat 13.
Definition LF : ascii := Ascii.ascii_of_nat 10.

(** [str.replace(/\r\n|\r/g, '\n')]. *)
Fixpoint replaceLineBreaks (s : string) : string :=
  match s with
  | EmptyString => EmptyString
  | String c r =>
      if Ascii.eqb c CR then
        match r with
        | String c' r' =>
            if Ascii.eqb c' LF then String LF (replaceLineBreaks r')
            else String LF (replaceLineBreaks r)
        | EmptyString => String LF EmptyString
        end
      else String c (replaceLineBreaks r)
  end.

(** [normalizeLineEndings] (source lines 490-493). *)
Definition normalizeLineEndings (str : string) : string :=
  if String.eqb str "" then str else replaceLineBreaks str.

(** ** Configuration defaulting *)

(** [modeAliases] (source lines 399-405). *)
Definition modeAliases : gmap string string :=
  {[ "js" := "jsx";
     "html" := "htmlmixed";
     "md" := "markdown";
     "mdx" := "markdown";
     "scss" := "text/x-scss" ]}.

(** [modeAliases[mode]]: the property key is the string itself; a JsValue
    that is not a string converts to a key that the table does not hold. *)
Definition modeAliases_get (mode : JsValue) : JsValue :=
  match mode with
  | VStr s => match modeAliases !! s with
              | Some a => VStr a
              | None => VUndefined
              end
  | _ => VUndefined
  end.

(** [getDefaultMode] (source lines 433-435):
    [docName && docName.split('.').reverse()[0]]. *)
Definition getDefaultMode (docName : option string) : JsValue :=
  match docName with
  | None => VUndefined
  | Some s =>
      if truthy (VStr s) then
        match rev (split "." s) with
        | x :: _ => VStr x
        | [] => VUndefined
        end
      else VStr s
  end.

(** The key map handed to the editor: a string is passed through, anything
    else is merged over [defaultExtraKeysConfig]. *)
Definition extraKeysConfig (extraKeys : JsValue) : JsValue :=
  match extraKeys with
  | VStr s => VStr s
  | _ => VMergedKeys extraKeys
  end.

(** [useEditorConfiguration] (source lines 451-488).  [config] is the
    host's configuration ([{}] when the option is absent); [extraKeys] and
    [mode] are taken out of it and the remaining keys override the
    defaults. *)
Definition useEditorConfiguration (config : Config) (docName : option string)
  : Config :=
  let extraKeys := prop config "extraKeys" in
  let mode := prop config "mode" in
  let rest := delete "extraKeys" (delete "mode" config) in
  let mode := if negb (truthy mode) then getDefaultMode docName else mode in
  rest ∪
  ({[ "autoCloseBrackets" := VBool true;
      "indentWithTabs" := VBool false;
      "extraKeys" := extraKeysConfig extraKeys;
      "keyMap" := VStr "sublime";
      "matchBrackets" := VBool true;
      "matchTags" := VDefaultMatchTags;
      "mode" := js_or (modeAliases_get mode) mode;
      "scrollbarStyle" := VStr "simple";
      "smartIndent" := VBool false;
      "styleActiveLine" := VBool true;
      "tabSize" := VNum 2 ]} : Config).

(** ** The CodeMirror library, as far as the adapter uses it *)

Record Position : Type := { line : Z; ch : Z }.

Record SetSelectionOptions : Type := { sel_anchor : Position; sel_head : Position }.

Record SetScrollOptions : Type := { scroll_x : option Z; scroll_y : option Z }.

(** [CodeMirror.EditorChange]: the adapter only reads [origin]. *)
Record EditorChange : Type := {
  ch_from : Position;
  ch_to : Position;
  ch_text : list string;
  origin : option string
}.

#[global] Instance Position_eq_dec : EqDecision Position.
Proof. solve_decision. Defined.
#[global] Instance SetSelectionOptions_eq_dec : EqDecision SetSelectionOptions.
Proof. solve_decision. Defined.
#[global] Instance SetScrollOptions_eq_dec : EqDecision SetScrollOptions.
Proof. solve_decision. Defined.
#[global] Instance EditorChange_eq_dec : EqDecision EditorChange.
Proof. solve_decision. Defined.

(** A [CodeMirror.Doc] object.  Documents live in a store and are known by
    their index in it, which stands for the identity of the object. *)
Record Doc : Type := {
  doc_text : string;
  doc_mode : JsValue;
  doc_cursor : Position
}.

Abbreviation DocRef := nat.
Abbreviation Heap := (list Doc).

(** A [CodeMirror.Editor] object: the document it displays and its live
    option values. *)
Record Editor : Type := {
  cm_doc : DocRef;
  cm_options : Config
}.

(** Every call the adapter makes, on the library or on a callback of the
    host, in the order it is made. *)
Inductive Call : Type :=
| CNewCodeMirror (config : Config)
| CReplaceChild
| COn (event : string)
| CNewDoc (text : option string) (mode : JsValue)
| CGetDoc
| CSwapDoc (d : DocRef)
| CGetValue
| CSetValue (v : string)
| CGetOption (k : string)
| CSetOption (k : string) (v : JsValue)
| CGetCursor (d : DocRef)
| CSetCursor (d : DocRef) (pos : Position) (scroll : option bool)
| CSetSelections (d : DocRef) (ranges : list SetSelectionOptions)
| CFocus
| CScrollTo (sx sy : option Z)
| CGetScrollInfo
| UOnBlur (cb : nat)
| UOnChange (cb : nat) (v : string) (docName : option string)
            (changes : list EditorChange) (d : DocRef)
| UOnCursor (cb : nat) (pos : Position)
| UOnFocus (cb : nat)
| UOnGutterClick (cb : nat) (lineNumber : Z) (gutter : string)
| UOnScroll (cb : nat)
| UOnSelection (cb : nat) (data : JsValue)
| UOnViewportChange (cb : nat) (start stop : Z).

#[global] Instance Call_eq_dec : EqDecision Call.
Proof. solve_decision. Defined.

(** Adapter code runs against the document store and emits calls. *)
Definition M (A : Type) : Type := Heap → A * Heap * list Call.

Definition ret {A} (a : A) : M A := λ h, (a, h, []).

Definition bind {A B} (m : M A) (f : A → M B) : M B :=
  λ h, let '(a, h1, t1) := m h in
       let '(b, h2, t2) := f a h1 in
       (b, h2, t1 ++ t2).

Declare Scope cm_scope.
Delimit Scope cm_scope with cm.
Notation "x <- m ;; k" := (bind m (λ x, k))
  (at level 20, m at level 99, k at level 200, only parsing) : cm_scope.
Notation "' p <- m ;; k" := (bind m (λ x, let 'p := x in k))
  (at level 20, p pattern, m at level 99, k at level 200, only parsing) : cm_scope.
Notation "m ;;; k" := (bind m (λ _, k))
  (at level 100, k at level 200, only parsing, right associativity) : cm_scope.
Local Open Scope cm_scope.

Definition result_of {A} (r : A * Heap * list Call) : A := r.1.1.
Definition heap_of {A} (r : A * Heap * list Call) : Heap := r.1.2.
Definition trace_of {A} (r : A * Heap * list Call) : list Call := r.2.

Definition when (b : bool) (m : M unit) : M unit := if b then m else ret tt.

Definition origin_pos : Position := {| line := 0; ch := 0 |}.

Definition blank_doc (text : string) (mode : JsValue) : Doc :=
  {| doc_text := text; doc_mode := mode; doc_cursor := origin_pos |}.

(** [new CodeMirror.Doc(text, mode)]: a fresh object. *)
Definition newDoc (text : option string) (mode : JsValue) : M DocRef :=
  λ h, (length h, h ++ [blank_doc (default "" text) mode], [CNewDoc text mode]).

Definition getDoc (e : Editor) : M DocRef :=
  λ h, (cm_doc e, h, [CGetDoc]).

Definition swapDoc (e : Editor) (d : DocRef) : M Editor :=
  λ h, ({| cm_doc := d; cm_options := cm_options e |}, h, [CSwapDoc d]).

Definition text_of (h : Heap) (d : DocRef) : string :=
  default "" (doc_text <$> h !! d).

Definition cursor_of (h : Heap) (d : DocRef) : Position :=
  default origin_pos (doc_cursor <$> h !! d).

Definition getValue (e : Editor) : M string :=
  λ h, (text_of h (cm_doc e), h, [CGetValue]).

(** [editor.setValue(v)] replaces the text of the displayed document and
    puts the cursor at its start. *)
Definition setValue (e : Editor) (v : string) : M unit :=
  λ h, (tt,
        alter (λ d, {| doc_text := v; doc_mode := doc_mode d;
                       doc_cursor := origin_pos |}) (cm_doc e) h,
        [CSetValue v]).

Definition getOption (e : Editor) (k : string) : M JsValue :=
  λ h, (prop (cm_options e) k, h, [CGetOption k]).

Definition setOption (e : Editor) (k : string) (v : JsValue) : M Editor :=
  λ h, ({| cm_doc := cm_doc e; cm_options := <[k := v]> (cm_options e) |},
        h, [CSetOption k v]).

Definition getCursor (d : DocRef) : M Position :=
  λ h, (cursor_of h d, h, [CGetCursor d]).

Definition set_cursor (p : Position) (d : Doc) : Doc :=
  {| doc_text := doc_text d; doc_mode := doc_mode d; doc_cursor := p |}.

Definition setCursor (d : DocRef) (p : Position) (scroll : option bool) : M unit :=
  λ h, (tt, alter (set_cursor p) d h, [CSetCursor d p scroll]).

Definition setSelections (d : DocRef) (ranges : list SetSelectionOptions) : M unit :=
  λ h, (tt,
        match last ranges with
        | Some r => alter (set_cursor (sel_head r)) d h
        | None => h
        end,
        [CSetSelections d ranges]).

Definition call (c : Call) : M unit := λ h, (tt, h, [c]).

(** ** Options and the instance *)

Record Selection : Type := {
  ranges : list SetSelectionOptions;
  focus : option bool
}.

(** [CodeMirrorInstanceOptions] (source lines 45-74 and 198-200).  An
    optional field that is absent is [None]; a callback is known by an
    identifier; [config] is the resolved configuration. *)
Record Options : Type := {
  autoCursor : option bool;
  autoScroll : option bool;
  cursor : option Position;
  doc : option DocRef;
  docName : option string;
  scroll : option SetScrollOptions;
  selection : option Selection;
  value : option string;
  config : Config;
  onBlur : option nat;
  onChange : option nat;
  onCursor : option nat;
  onFocus : option nat;
  onGutterClick : option nat;
  onScroll : option nat;
  onSelection : option nat;
  onViewportChange : option nat
}.

(** A live [CodeMirrorInstance] (source lines 202-207): the registry of
    documents by name, the editor and the options of the last call.  The
    editor is held by value: one instance owns one editor, and [dispose]
    is only ever called on the way out, when the instance is dropped. *)
Record Instance : Type := {
  docs : gmap string DocRef;
  editor : Editor;
  options : Options
}.

Definition set_docs (ds : gmap string DocRef) (this : Instance) : Instance :=
  {| docs := ds; editor := editor this; options := options this |}.
Definition set_editor (e : Editor) (this : Instance) : Instance :=
  {| docs := docs this; editor := e; options := options this |}.
Definition set_options (o : Options) (this : Instance) : Instance :=
  {| docs := docs this; editor := editor this; options := o |}.

(** An optional flag read in a condition. *)
Definition flag (b : option bool) : bool := default false b.

(** The registry key: [if (!docName) docName = '']. *)
Definition docKey (docName : option string) : string :=
  match docName with
  | Some s => if truthy (VStr s) then s else ""
  | None => ""
  end.

(** [updateDocIfRequired] (source lines 313-334). *)
Definition updateDocIfRequired (this : Instance) : M (DocRef * Instance) :=
  let mode := prop (config (options this)) "mode" in
  let docName := docKey (docName (options this)) in
  '(d, this) <-
     match doc (options this) with
     | Some d => ret (d, this)
     | None =>
         match docs this !! docName with
         | Some d => ret (d, this)
         | None =>
             d <- newDoc (value (options this)) mode ;;
             ret (d, set_docs (<[docName := d]> (docs this)) this)
         end
     end ;;
  let this := set_docs (<[docName := d]> (docs this)) this in
  shown <- getDoc (editor this) ;;
  if bool_decide (d ≠ shown) then
    e <- swapDoc (editor this) d ;;
    ret (d, set_editor e this)
  else ret (d, this).

(** [configKeys.filter(key => this.editor.getOption(key) !== config[key])]. *)
Fixpoint configDelta (e : Editor) (cfg : Config) (keys : list string)
  : M (list string) :=
  match keys with
  | [] => ret []
  | k :: ks =>
      live <- getOption e k ;;
      delta <- configDelta e cfg ks ;;
      ret (if strict_neq live (prop cfg k) then k :: delta else delta)
  end.

(** [configDelta.forEach(key => this.editor.setOption(key, config[key]))]. *)
Fixpoint applyDelta (e : Editor) (cfg : Config) (delta : list string) : M Editor :=
  match delta with
  | [] => ret e
  | k :: ks => e <- setOption e k (prop cfg k) ;; applyDelta e cfg ks
  end.

(** [Object.keys(config)]. *)
Definition keys (cfg : Config) : list string := (map_to_list cfg).*1.

(** [update] (source lines 248-310).  [oldOptions] is bound as the source
    binds it: to the incoming options, before [this.options] is
    overwritten. *)
Definition update (opts : Options) (this : Instance) : M Instance :=
  let oldOptions := Some opts in
  let this := set_options opts this in
  (* Switch out the doc if required *)
  '(d, this) <- updateDocIfRequired this ;;
  preserved <-
    (if negb (flag (autoCursor opts)) && bool_decide (autoCursor opts ≠ None)
     then c <- (d' <- getDoc (editor this) ;; getCursor d') ;; ret (Some c)
     else ret None) ;;
  (* If a new value has been set, and it differs from the editor's current
     value, then set it in the editor. *)
  didUpdateValue <-
    match value opts with
    | None => ret false
    | Some v =>
        cur <- getValue (editor this) ;;
        if negb (String.eqb (normalizeLineEndings cur) (normalizeLineEndings v))
           && match oldOptions with
              | None => true
              | Some old => negb (bool_decide (value old = value opts))
              end
        then setValue (editor this) v ;;; ret true
        else ret false
    end ;;
  (* Update any editor config options that have changed *)
  let cfg := config (options this) in
  delta <- configDelta (editor this) cfg (keys cfg) ;;
  e <- applyDelta (editor this) cfg delta ;;
  let this := set_editor e this in
  (* Update selection if required *)
  (if didUpdateValue then
     match selection opts with
     | Some sel =>
         setSelections d (ranges sel) ;;;
         when (flag (focus sel)) (call CFocus)
     | None => ret tt
     end
   else ret tt) ;;;
  (* Update cursor position if required *)
  match cursor opts with
   | Some c =>
       autofocus <- getOption (editor this) "autofocus" ;;
       when (truthy autofocus) (call CFocus) ;;;
       setCursor d (default c preserved)
         (if flag (autoScroll opts) then None else Some false)
   | None => ret tt
   end ;;;
  (* Update scroll if required *)
  match scroll opts with
   | Some s => call (CScrollTo (scroll_x s) (scroll_y s))
   | None => ret tt
   end ;;;
  ret this.

(** [dispose] (source lines 236-246), on a live instance. *)
Definition dispose (this : Instance) : M unit :=
  d <- newDoc (Some "") VUndefined ;;
  _ <- swapDoc (editor this) d ;;
  ret tt.

(** The event handlers (source lines 336-396). *)
Definition handleBlur (this : Instance) : M unit :=
  match onBlur (options this) with
  | Some cb => call (UOnBlur cb)
  | None => ret tt
  end.

Definition handleChanges (this : Instance) (changes : list EditorChange) : M unit :=
  if bool_decide (length changes = 1%nat)
     && match changes with
        | c :: _ => bool_decide (origin c = Some "setValue")
        | [] => false
        end
  then ret tt
  else if negb (truthy (prop (config (options this)) "readOnly")) then
    match onChange (options this) with
    | Some cb =>
        v <- getValue (editor this) ;;
        d <- getDoc (editor this) ;;
        call (UOnChange cb v (docName (options this)) changes d)
    | None => ret tt
    end
  else ret tt.

Definition handleCursor (this : Instance) : M unit :=
  match onCursor (options this) with
  | Some cb =>
      d <- getDoc (editor this) ;;
      pos <- getCursor d ;;
      call (UOnCursor cb pos)
  | None => ret tt
  end.

Definition handleFocus (this : Instance) : M unit :=
  match onFocus (options this) with
  | Some cb => call (UOnFocus cb)
  | None => ret tt
  end.

Definition handleGutterClick (this : Instance) (lineNumber : Z) (gutter : string)
  : M unit :=
  match onGutterClick (options this) with
  | Some cb => call (UOnGutterClick cb lineNumber gutter)
  | None => ret tt
  end.

Definition handleScroll (this : Instance) : M unit :=
  match onScroll (options this) with
  | Some cb => call CGetScrollInfo ;;; call (UOnScroll cb)
  | None => ret tt
  end.

Definition handleSelection (this : Instance) (data : JsValue) : M unit :=
  match onSelection (options this) with
  | Some cb => call (UOnSelection cb data)
  | None => ret tt
  end.

Definition handleViewportChange (this : Instance) (start stop : Z) : M unit :=
  match onViewportChange (options this) with
  | Some cb => call (UOnViewportChange cb start stop)
  | None => ret tt
  end.

(** The result of [useCodeMirror] ([ReactCodeMirror], source lines 90-95).
    [rcm_editor] is the handle captured by this render; [rcm_focus] is the
    closure [() => editor && editor.focus()] over it. *)
Record ReactCodeMirror : Type := {
  rcm_config : Config;
  rcm_editor : option Editor;
  rcm_focus : M unit;
  rcm_ref : bool
}.

(** The refs of one mounted component, with the two pieces of state of the
    mount effect: its local [isMounted] and whether the [then] callback of
    the load is still to run. *)
Record HookState : Type := {
  initialOptionsRef : Options;
  instanceRef : option Instance;
  externalRef : bool;
  nodePromiseRef : bool;
  isMounted : bool;
  loadPending : bool
}.

Inductive Event : Type :=
| Render (unmemoizedOptions : Options)
| LoadResolved
| Unmount.

(** [{...unmemoizedOptions, config}] with the resolved configuration. *)
Definition resolve (unmemoizedOptions : Options) : Options :=
  let o := unmemoizedOptions in
  {| autoCursor := autoCursor o; autoScroll := autoScroll o;
     cursor := cursor o; doc := doc o; docName := docName o;
     scroll := scroll o; selection := selection o; value := value o;
     config := useEditorConfiguration (config o) (docName o);
     onBlur := onBlur o; onChange := onChange o; onCursor := onCursor o;
     onFocus := onFocus o; onGutterClick := onGutterClick o;
     onScroll := onScroll o; onSelection := onSelection o;
     onViewportChange := onViewportChange o |}.

(** The body of [useCodeMirror] for one render (source lines 100-124 and
    168-176): the refs are created when missing and the result captures the
    editor of the instance that exists now. *)
Definition render (unmemoizedOptions : Options) (s : HookState)
  : ReactCodeMirror * HookState :=
  let options := resolve unmemoizedOptions in
  let s :=
    if negb (externalRef s) then
      {| initialOptionsRef := initialOptionsRef s; instanceRef := instanceRef s;
         externalRef := true; nodePromiseRef := true;
         isMounted := isMounted s; loadPending := loadPending s |}
    else s in
  let editor := editor <$> instanceRef s in
  ({| rcm_config := config options;
      rcm_editor := editor;
      rcm_focus := match editor with
                   | Some _ => call CFocus
                   | None => ret tt
                   end;
      rcm_ref := externalRef s |}, s).

(** The layout effect, run after every render (source lines 126-132). *)
Definition layoutEffect (options : Options) (s : HookState) : M HookState :=
  match instanceRef s with
  | Some inst =>
      inst <- update options inst ;;
      ret {| initialOptionsRef := initialOptionsRef s; instanceRef := Some inst;
             externalRef := externalRef s; nodePromiseRef := nodePromiseRef s;
             isMounted := isMounted s; loadPending := loadPending s |}
  | None =>
      ret {| initialOptionsRef := options; instanceRef := None;
             externalRef := externalRef s; nodePromiseRef := nodePromiseRef s;
             isMounted := isMounted s; loadPending := loadPending s |}
  end.

(** The clean-up of the mount effect (source lines 154-164). *)
Definition cleanup (s : HookState) : M HookState :=
  match instanceRef s with
   | Some inst => dispose inst
   | None => ret tt
   end ;;;
  ret {| initialOptionsRef := initialOptionsRef s; instanceRef := None;
         externalRef := false; nodePromiseRef := false;
         isMounted := false; loadPending := loadPending s |}.

Section Library.

(** [CodeMirror.defaults]: the library's value for every option the
    configuration does not give. *)
Variable defaults : Config.

(** [new CodeMirror(callback, config)]: a fresh editor on a fresh
    document; [callback] puts the editor's node in place of the
    placeholder. *)
Definition newCodeMirror (cfg : Config) : M Editor :=
  λ h, let live := cfg ∪ defaults in
       ({| cm_doc := length h; cm_options := live |},
        h ++ [blank_doc match prop live "value" with
                        | VStr s => s
                        | _ => ""
                        end (prop live "mode")],
        [CNewCodeMirror cfg; CReplaceChild]).

(** The constructor of [CodeMirrorInstance] (source lines 209-234). *)
Definition constructor (options : Options) : M Instance :=
  e <- newCodeMirror (config options) ;;
  let this := {| docs := ∅; editor := e; options := options |} in
  '(_, this) <- updateDocIfRequired this ;;
  call (COn "blur") ;;;
  call (COn "changes") ;;;
  call (COn "scroll") ;;;
  call (COn "cursor") ;;;
  call (COn "focus") ;;;
  call (COn "gutterClick") ;;;
  call (COn "beforeSelectionChange") ;;;
  call (COn "viewportChange") ;;;
  ret this.

(** The [then] callback of the load (source lines 144-152). *)
Definition loadResolved (s : HookState) : M HookState :=
  if loadPending s then
    inst <- (if isMounted s
             then i <- constructor (initialOptionsRef s) ;; ret (Some i)
             else ret (instanceRef s)) ;;
    ret {| initialOptionsRef := initialOptionsRef s; instanceRef := inst;
           externalRef := externalRef s; nodePromiseRef := nodePromiseRef s;
           isMounted := isMounted s; loadPending := false |}
  else ret s.

(** The first render of a component, up to the start of the load (source
    lines 112-143). *)
Definition mount (unmemoizedOptions : Options) : HookState :=
  {| initialOptionsRef := resolve unmemoizedOptions; instanceRef := None;
     externalRef := true; nodePromiseRef := true;
     isMounted := true; loadPending := true |}.

Definition step (ev : Event) (s : HookState) : M HookState :=
  match ev with
  | Render o => layoutEffect (resolve o) (render o s).2
  | LoadResolved => loadResolved s
  | Unmount => cleanup s
  end.

Fixpoint run (evs : list Event) (s : HookState) : M HookState :=
  match evs with
  | [] => ret s
  | ev :: evs => s <- step ev s ;; run evs s
  end.

End Library.

(** ** Auxiliary definitions for the statements *)

(** The document [updateDocIfRequired] settles on: the one passed in the
    options, else the registered one, else the one it is about to create. *)
Definition shownDoc (this : Instance) (h : Heap) : DocRef :=
  match doc (options this) with
  | Some d => d
  | None => default (length h) (docs this !! docKey (docName (options this)))
  end.

Definition createsDoc (this : Instance) : bool :=
  match doc (options this) with
  | Some _ => false
  | None => bool_decide (docs this !! docKey (docName (options this)) = None)
  end.

(** The keys whose live value differs from the configuration, and the live
    options once they are applied. *)
Definition changedKeys (live cfg : Config) (ks : list string) : list string :=
  filter (λ k, prop live k ≠ prop cfg k) ks.

Definition applied (live cfg : Config) (ks : list string) : Config :=
  foldl (λ m k, <[k := prop cfg k]> m) live ks.

(** The condition under which [update] reads the cursor to preserve it. *)
Definition capture (opts : Options) : bool :=
  negb (flag (autoCursor opts)) && bool_decide (autoCursor opts ≠ None).

(** Every live option agrees with the instance's configuration on the keys
    the configuration has. *)
Definition synced (this : Instance) : Prop :=
  ∀ k, is_Some (config (options this) !! k) →
       prop (cm_options (editor this)) k = prop (config (options this)) k.


Fixpoint has_dot (s : string) : bool :=
  match s with
  | EmptyString => false
  | String c r => Ascii.eqb c "." || has_dot r
  end.


(** ** Sample inputs *)

Definition plain (name : option string) (text : string) : Options :=
  {| autoCursor := None; autoScroll := None; cursor := None; doc := None;
     docName := name; scroll := None; selection := None; value := Some text;
     config := ∅;
     onBlur := None; onChange := None; onCursor := None; onFocus := None;
     onGutterClick := None; onScroll := None; onSelection := None;
     onViewportChange := None |}.


Definition with_cursor (ac : option bool) (c : Position) (o : Options) : Options :=
  {| autoCursor := ac; autoScroll := autoScroll o;
     cursor := Some c; doc := doc o; docName := docName o;
     scroll := scroll o; selection := selection o; value := value o;
     config := config o;
     onBlur := onBlur o; onChange := onChange o; onCursor := onCursor o;
     onFocus := onFocus o; onGutterClick := onGutterClick o;
     onScroll := onScroll o; onSelection := onSelection o;
     onViewportChange := onViewportChange o |}.

Definition with_config (cfg : Config) (o : Options) : Options :=
  {| autoCursor := autoCursor o; autoScroll := autoScroll o;
     cursor := cursor o; doc := doc o; docName := docName o;
     scroll := scroll o; selection := selection o; value := value o;
     config := cfg;
     onBlur := onBlur o; onChange := onChange o; onCursor := onCursor o;
     onFocus := onFocus o; onGutterClick := onGutterClick o;
     onScroll := onScroll o; onSelection := onSelection o;
     onViewportChange := onViewportChange o |}.

Definition with_onChange (cb : nat) (o : Options) : Options :=
  {| autoCursor := autoCursor o; autoScroll := autoScroll o;
     cursor := cursor o; doc := doc o; docName := docName o;
     scroll := scroll o; selection := selection o; value := value o;
     config := config o;
     onBlur := onBlur o; onChange := Some cb; onCursor := onCursor o;
     onFocus := onFocus o; onGutterClick := onGutterClick o;
     onScroll := onScroll o; onSelection := onSelection o;
     onViewportChange := onViewportChange o |}.

(** The scenario of the README: a component mounted on [x.js] with the
    text [a]; the options of the mount and of a later render with [b]. *)
Definition mounted_a : Options := resolve (plain (Some "x.js") "a").
Definition render_b : Options := resolve (plain (Some "x.js") "b").

(** The instance the constructor builds for [o] in an empty store, and the
    store it leaves. *)
Definition built (o : Options) : Instance := result_of (constructor ∅ o []).
Definition built_heap (o : Options) : Heap := heap_of (constructor ∅ o []).

Definition typed (c : string) (org : string) : EditorChange :=
  {| ch_from := origin_pos; ch_to := origin_pos; ch_text := [c];
     origin := Some org |}.


(** A host that keeps a document of its own (reference 0) next to a
    component mounted on [a.js]. *)
Definition host_heap : Heap := [blank_doc "kept by the host" VUndefined].
Definition on_a : Options := resolve (plain (Some "a.js") "a").
Definition on_b : Options := resolve (plain (Some "b.js") "b").
Definition hosted : Instance := result_of (constructor ∅ on_a host_heap).
Definition hosted_heap : Heap := heap_of (constructor ∅ on_a host_heap).



(** A hook state in which nothing can attach an instance any more. *)
Definition detached (s : HookState) : Prop :=
  isMounted s = false ∧ instanceRef s = None.

(** ** The default key bindings *)

(** [Array.prototype.join] on an array of strings. *)
Fixpoint join (sep : string) (l : list string) : string :=
  match l with
  | [] => EmptyString
  | x :: xs =>
      match xs with
      | [] => x
      | _ => (x ++ sep ++ join sep xs)%string
      end
  end.



(** ** Further vocabulary for the statements *)

Fixpoint has_cr (s : string) : bool :=
  match s with
  | EmptyString => false
  | String c r => Ascii.eqb c CR || has_cr r
  end.

Fixpoint has_lf (s : string) : bool :=
  match s with
  | EmptyString => false
  | String c r => Ascii.eqb c LF || has_lf r
  end.

(** A line of text: no line break of either kind inside. *)
Definition is_line (s : string) : Prop := has_cr s = false ∧ has_lf s = false.

Definition CRLF : string := String CR (String LF EmptyString).


(** Calls that only read from the editor. *)
Definition isGetter (c : Call) : bool :=
  match c with
  | CGetDoc | CGetValue | CGetOption _ | CGetCursor _ => true
  | _ => false
  end.

Definition isNewCodeMirror (c : Call) : bool :=
  match c with
  | CNewCodeMirror _ => true
  | _ => false
  end.

(** The test at the head of [handleChanges]: the notification is the
    adapter's own [setValue] and nothing else. *)
Definition ownSetValue (changes : list EditorChange) : bool :=
  match changes with
  | [c] => bool_decide (origin c = Some "setValue")
  | _ => false
  end.


(** More sample inputs. *)
Definition with_autofocus : Options :=
  with_cursor None {| line := 2; ch := 0 |}
    (resolve (with_config {[ "autofocus" := VBool true ]} (plain (Some "x.js") "a"))).

Definition themed : Options :=
  resolve (with_config {[ "theme" := VStr "night" ]} (plain (Some "x.js") "a")).

Definition unnamed : Options := resolve (plain None "a").
Definition named_empty : Options := resolve (plain (Some "") "a").

(** * Properties *)

(** ** Running the adapter code *)

Lemma bind_run {A B} (m : M A) (f : A → M B) h :
  bind m f h =
  (result_of (f (result_of (m h)) (heap_of (m h))),
   heap_of (f (result_of (m h)) (heap_of (m h))),
   trace_of (m h) ++ trace_of (f (result_of (m h)) (heap_of (m h)))).
Proof.
  unfold bind, result_of, heap_of, trace_of.
  destruct (m h) as [[a h1] t1]; simpl.
  destruct (f a h1) as [[b h2] t2]; reflexivity.
Qed.

Lemma updateDocIfRequired_run this h :
  updateDocIfRequired this h =
  let d := shownDoc this h in
  let mode := prop (config (options this)) "mode" in
  ((d, {| docs := <[docKey (docName (options this)) := d]> (docs this);
          editor := {| cm_doc := d; cm_options := cm_options (editor this) |};
          options := options this |}),
   if createsDoc this
   then h ++ [blank_doc (default "" (value (options this))) mode]
   else h,
   (if createsDoc this then [CNewDoc (value (options this)) mode] else [])
   ++ CGetDoc
      :: (if bool_decide (d ≠ cm_doc (editor this)) then [CSwapDoc d] else [])).
Proof.
  unfold updateDocIfRequired, shownDoc, createsDoc.
  destruct this as [ds [shown live] o]; simpl.
  destruct (doc o) as [d|]; simpl.
  - unfold bind, ret, getDoc, swapDoc, set_docs, set_editor; simpl.
    case_bool_decide; simpl; [reflexivity|].
    subst. reflexivity.
  - destruct (ds !! docKey (docName o)) as [d|] eqn:E; simpl.
    + unfold bind, ret, getDoc, swapDoc, set_docs, set_editor; simpl.
      case_bool_decide; simpl; [reflexivity|].
      subst. reflexivity.
    + unfold bind, ret, getDoc, swapDoc, newDoc, set_docs, set_editor; simpl.
      rewrite insert_insert_eq.
      case_bool_decide as Hd; simpl; [reflexivity|].
      rewrite <- Hd. reflexivity.
Qed.

Lemma configDelta_run e cfg ks h :
  configDelta e cfg ks h = (changedKeys (cm_options e) cfg ks, h, CGetOption <$> ks).
Proof.
  induction ks as [|k ks IH]; [reflexivity|].
  cbn [configDelta]. unfold bind at 1. unfold getOption at 1.
  unfold bind at 1. rewrite IH. unfold ret, changedKeys, strict_neq.
  rewrite filter_cons. simpl. rewrite app_nil_r.
  case_bool_decide; case_decide; simpl; first [reflexivity | congruence].
Qed.

Lemma applyDelta_run e cfg ks h :
  applyDelta e cfg ks h =
  ({| cm_doc := cm_doc e; cm_options := applied (cm_options e) cfg ks |}, h,
   (λ k, CSetOption k (prop cfg k)) <$> ks).
Proof.
  revert e. induction ks as [|k ks IH]; intros e.
  - destruct e; reflexivity.
  - cbn [applyDelta]. unfold bind, setOption. rewrite IH. reflexivity.
Qed.

Ltac run_step :=
  cbn -[configDelta applyDelta keys normalizeLineEndings text_of cursor_of alter
        shownDoc createsDoc blank_doc].

(** [update] in one piece: the instance, the store and the calls it makes.
    The branch that replaces the text is absent: its guard compares the
    value of [oldOptions], an alias of the incoming options, with itself. *)
Lemma update_run opts this h :
  update opts this h =
  let r0 := updateDocIfRequired (set_options opts this) h in
  let d := (result_of r0).1 in
  let this1 := (result_of r0).2 in
  let h1 := heap_of r0 in
  let cfg := config opts in
  let delta := changedKeys (cm_options (editor this1)) cfg (keys cfg) in
  let live := applied (cm_options (editor this1)) cfg delta in
  let pos c := if capture opts then cursor_of h1 d else c in
  (set_editor {| cm_doc := d; cm_options := live |} this1,
   match cursor opts with
   | Some c => alter (set_cursor (pos c)) d h1
   | None => h1
   end,
   trace_of r0
   ++ (if capture opts then [CGetDoc; CGetCursor d] else [])
   ++ match value opts with Some _ => [CGetValue] | None => [] end
   ++ (CGetOption <$> keys cfg)
   ++ ((λ k, CSetOption k (prop cfg k)) <$> delta)
   ++ match cursor opts with
      | Some c =>
          CGetOption "autofocus"
          :: (if truthy (prop live "autofocus") then [CFocus] else [])
          ++ [CSetCursor d (pos c)
                (if flag (autoScroll opts) then None else Some false)]
      | None => []
      end
   ++ match scroll opts with
      | Some s => [CScrollTo (scroll_x s) (scroll_y s)]
      | None => []
      end).
Proof.
  unfold update. unfold bind at 1.
  rewrite updateDocIfRequired_run. cbn zeta. cbn [result_of heap_of trace_of fst snd].
  cbn [options set_options config editor docs set_editor].
  assert (Hv : negb (bool_decide (value opts = value opts)) = false)
    by (rewrite bool_decide_eq_true_2; done).
  unfold capture.
  destruct (autoCursor opts) as [[]|]; cbn [flag default negb andb id].
  all: try (rewrite (bool_decide_eq_true_2 (Some false ≠ None)) by done).
  all: destruct (value opts) as [v|]; destruct (selection opts) as [sel|];
    destruct (cursor opts) as [c|]; destruct (scroll opts) as [s|].
  all: unfold bind, ret, getDoc, getCursor, getValue, when, call, setCursor, getOption;
    cbn [cm_doc cm_options].
  all: run_step; rewrite ?Hv, ?andb_false_r; run_step.
  all: rewrite configDelta_run; run_step.
  all: rewrite applyDelta_run; run_step.
  all: try (destruct (truthy _)); run_step.
  all: rewrite ?app_nil_r; reflexivity.
Qed.

(** The calls of [updateDocIfRequired] never touch options or text. *)
Lemma updateDoc_calls c this h :
  c ∈ trace_of (updateDocIfRequired this h) →
  c = CNewDoc (value (options this)) (prop (config (options this)) "mode")
  ∨ c = CGetDoc ∨ c = CSwapDoc (shownDoc this h).
Proof.
  rewrite updateDocIfRequired_run. cbn [trace_of snd].
  rewrite elem_of_app, elem_of_cons.
  intros [Hc|[Hc|Hc]]; [left|right; left; exact Hc|right; right].
  - destruct (createsDoc this); [|by apply elem_of_nil in Hc].
    by apply list_elem_of_singleton in Hc.
  - case_bool_decide; [|by apply elem_of_nil in Hc].
    by apply list_elem_of_singleton in Hc.
Qed.

(** Membership in an explicit list of calls, case by case. *)
Ltac in_calls H :=
  repeat match type of H with
         | _ ∈ [] => apply elem_of_nil in H; destruct H
         | _ ∈ _ :: _ => apply elem_of_cons in H; destruct H as [H|H]
         | _ ∈ _ ++ _ => apply elem_of_app in H; destruct H as [H|H]
         | _ ∈ (if ?b then _ else _) => destruct b
         | _ ∈ _ <$> _ => apply list_elem_of_fmap in H; destruct H as (? & H & ?)
         end.

(** No run of [update] replaces the editor's text. *)
Lemma update_never_setValue opts this h v :
  CSetValue v ∉ trace_of (update opts this h).
Proof.
  rewrite update_run. cbn zeta. cbn [trace_of snd].
  rewrite !elem_of_app. intros [Hc|[Hc|[Hc|[Hc|[Hc|[Hc|Hc]]]]]].
  - apply updateDoc_calls in Hc. destruct Hc as [Hc|[Hc|Hc]]; discriminate.
  - in_calls Hc; discriminate.
  - destruct (value opts); in_calls Hc; discriminate.
  - in_calls Hc; discriminate.
  - in_calls Hc; discriminate.
  - destruct (cursor opts); in_calls Hc; discriminate.
  - destruct (scroll opts); in_calls Hc; discriminate.
Qed.

Lemma update_docs opts this h :
  docs (result_of (update opts this h)) =
  <[docKey (docName opts) := shownDoc (set_options opts this) h]> (docs this).
Proof. rewrite update_run. cbn zeta. rewrite updateDocIfRequired_run. reflexivity. Qed.

Lemma update_cm_doc opts this h :
  cm_doc (editor (result_of (update opts this h))) =
  shownDoc (set_options opts this) h.
Proof. rewrite update_run. cbn zeta. rewrite updateDocIfRequired_run. reflexivity. Qed.

(** ** Replacing the text (C1) *)

(** C1.  The claim asks for exactly one [setValue("b")] when the value
    goes from "a" to "b".  On the instance mounted with "a", whose editor
    shows "a", the update with "b" makes no [setValue] call at all and the
    editor still shows "a": the code does not do what the claim (and the
    comment above the guard) says. *)
Theorem update_a_to_b_replaces_nothing :
  let this := built mounted_a in
  let h := built_heap mounted_a in
  let r := update render_b this h in
  value (options this) = Some "a" ∧
  value render_b = Some "b" ∧
  text_of h (cm_doc (editor this)) = "a" ∧
  (∀ v, CSetValue v ∉ trace_of r) ∧
  text_of (heap_of r) (cm_doc (editor (result_of r))) = "a".
Proof.
  cbn zeta. repeat split; try (vm_compute; reflexivity).
  intros v. apply update_never_setValue.
Qed.

(** ** Cursor preservation (C3) *)

Lemma capture_spec opts : capture opts = bool_decide (autoCursor opts = Some false).
Proof. unfold capture. by destruct (autoCursor opts) as [[]|]. Qed.

Lemma flag_spec b : flag b = bool_decide (b = Some true).
Proof. by destruct b as [[]|]. Qed.

(** C3.  [update] reads the cursor exactly when [autoCursor] is [false];
    it calls [setCursor] exactly when a cursor is requested, on the
    displayed document, with the cursor it read if it read one and the
    requested one otherwise, and with [{scroll: false}] unless
    [autoScroll] is set. *)
Theorem update_cursor_precedence opts this h :
  let r := update opts this h in
  let shown := cm_doc (editor (result_of r)) in
  let switched := heap_of (updateDocIfRequired (set_options opts this) h) in
  ((∃ d, CGetCursor d ∈ trace_of r) ↔ autoCursor opts = Some false)
  ∧ ∀ d pos sc,
      CSetCursor d pos sc ∈ trace_of r ↔
      ∃ c, cursor opts = Some c ∧ d = shown ∧
           pos = (if bool_decide (autoCursor opts = Some false)
                  then cursor_of switched shown else c) ∧
           sc = (if bool_decide (autoScroll opts = Some true)
                 then None else Some false).
Proof.
  cbn zeta. rewrite update_cm_doc.
  rewrite update_run. cbn zeta. cbn [trace_of snd].
  replace (result_of (updateDocIfRequired (set_options opts this) h)).1
    with (shownDoc (set_options opts this) h)
    by (by rewrite updateDocIfRequired_run).
  rewrite capture_spec, flag_spec. split.
  - split.
    + intros [d' Hc]. rewrite !elem_of_app in Hc.
      destruct Hc as [Hc|[Hc|[Hc|[Hc|[Hc|[Hc|Hc]]]]]].
      * apply updateDoc_calls in Hc. destruct Hc as [Hc|[Hc|Hc]]; discriminate.
      * case_bool_decide; [assumption|]. in_calls Hc.
      * destruct (value opts); in_calls Hc; discriminate.
      * in_calls Hc; discriminate.
      * in_calls Hc; discriminate.
      * destruct (cursor opts); in_calls Hc; discriminate.
      * destruct (scroll opts); in_calls Hc; discriminate.
    + intros Hac. eexists. rewrite !elem_of_app. right; left.
      rewrite bool_decide_eq_true_2 by assumption.
      apply elem_of_cons; right. apply list_elem_of_singleton. reflexivity.
  - intros d' pos sc. split.
    + rewrite !elem_of_app.
      intros [Hc|[Hc|[Hc|[Hc|[Hc|[Hc|Hc]]]]]].
      * apply updateDoc_calls in Hc. destruct Hc as [Hc|[Hc|Hc]]; discriminate.
      * in_calls Hc; discriminate.
      * destruct (value opts); in_calls Hc; discriminate.
      * in_calls Hc; discriminate.
      * in_calls Hc; discriminate.
      * destruct (cursor opts) as [c|]; [|in_calls Hc].
        exists c. in_calls Hc; try discriminate.
        all: injection Hc as -> -> ->; done.
      * destruct (scroll opts); in_calls Hc; discriminate.
    + intros (c & Hc & -> & -> & ->). rewrite Hc.
      rewrite !elem_of_app. do 5 right. left.
      apply elem_of_cons; right. apply elem_of_app; right.
      apply list_elem_of_singleton. reflexivity.
Qed.

Lemma update_cursor_precedence_witness :
  let opts := with_cursor (Some false) {| line := 3; ch := 1 |} mounted_a in
  let r := update opts (built mounted_a) (built_heap mounted_a) in
  CGetCursor 1%nat ∈ trace_of r
  ∧ CSetCursor 1%nat origin_pos (Some false) ∈ trace_of r.
Proof.
  cbn zeta.
  destruct (update_cursor_precedence
              (with_cursor (Some false) {| line := 3; ch := 1 |} mounted_a)
              (built mounted_a) (built_heap mounted_a)) as [_ Hset].
  split.
  - apply (bool_decide_unpack _). vm_compute. exact I.
  - apply Hset. exists {| line := 3; ch := 1 |}.
    repeat split; vm_compute; reflexivity.
Defined.

(** ** Change notifications (C4, C5) *)

(** C4.  While the configuration has [readOnly: true], a change
    notification invokes nothing, whatever the changes are. *)
Theorem handleChanges_readOnly this changes h :
  prop (config (options this)) "readOnly" = VBool true →
  handleChanges this changes h = (tt, h, []).
Proof.
  intros Hro. unfold handleChanges. rewrite Hro. cbn [truthy negb].
  destruct (_ && _); reflexivity.
Qed.

Lemma handleChanges_readOnly_witness :
  handleChanges
    (built (with_onChange 7 (with_config {[ "readOnly" := VBool true ]}
                               (plain (Some "x.js") "a"))))
    [typed "k" "+input"; typed "" "setValue"] [] = (tt, [], []).
Proof. apply handleChanges_readOnly. reflexivity. Defined.

(** C5.  A notification made of the single change of origin [setValue]
    invokes nothing; with one more change beside it the filter lets it
    through, and the host's [onChange] (when present and the editor is
    not read-only) receives the text, the name, all the changes and the
    document. *)
Theorem handleChanges_setValue_alone this c h :
  origin c = Some "setValue" →
  handleChanges this [c] h = (tt, h, [])
  ∧ ∀ before after cb,
      (1 ≤ length (before ++ after))%nat →
      onChange (options this) = Some cb →
      truthy (prop (config (options this)) "readOnly") = false →
      handleChanges this (before ++ c :: after) h =
      (tt, h,
       [CGetValue; CGetDoc;
        UOnChange cb (text_of h (cm_doc (editor this)))
          (docName (options this)) (before ++ c :: after)
          (cm_doc (editor this))]).
Proof.
  intros Ho. split.
  - unfold handleChanges. cbn [length]. rewrite Ho.
    rewrite !bool_decide_eq_true_2 by reflexivity. reflexivity.
  - intros before after cb Hlen Hcb Hro. unfold handleChanges.
    rewrite bool_decide_eq_false_2.
    + cbn [andb]. rewrite Hcb, Hro. reflexivity.
    + rewrite length_app in *. cbn [length]. lia.
Qed.

Lemma handleChanges_setValue_alone_witness :
  let this := built (with_onChange 7 (plain (Some "x.js") "a")) in
  let h := built_heap (with_onChange 7 (plain (Some "x.js") "a")) in
  handleChanges this [typed "b" "setValue"] h = (tt, h, [])
  ∧ handleChanges this [typed "k" "+input"; typed "b" "setValue"] h =
    (tt, h,
     [CGetValue; CGetDoc;
      UOnChange 7 "a" (Some "x.js")
        [typed "k" "+input"; typed "b" "setValue"] 1%nat]).
Proof.
  cbn zeta.
  destruct (handleChanges_setValue_alone
              (built (with_onChange 7 (plain (Some "x.js") "a")))
              (typed "b" "setValue")
              (built_heap (with_onChange 7 (plain (Some "x.js") "a")))
              eq_refl) as [Halone Hmore].
  split; [exact Halone|].
  apply (Hmore [typed "k" "+input"] [] 7%nat); [simpl; lia|reflexivity..].
Defined.

(** ** Configuration keys (C6) *)

Lemma elem_of_keys (cfg : Config) k : k ∈ keys cfg ↔ is_Some (cfg !! k).
Proof.
  unfold keys. rewrite list_elem_of_fmap. split.
  - intros ([k' v] & -> & Hkv). apply elem_of_map_to_list in Hkv. by exists v.
  - intros [v Hv]. exists (k, v). split; [done|]. by apply elem_of_map_to_list.
Qed.

Lemma prop_Some (cfg : Config) k v : cfg !! k = Some v → prop cfg k = v.
Proof. unfold prop. by intros ->. Qed.

Lemma applied_prop live cfg ks k :
  prop (applied live cfg ks) k = if decide (k ∈ ks) then prop cfg k else prop live k.
Proof.
  unfold applied. revert live. induction ks as [|k' ks IH]; intros live.
  - cbn [foldl]. case_decide as Hin; [by apply elem_of_nil in Hin|done].
  - cbn [foldl]. rewrite IH.
    destruct (decide (k ∈ ks)) as [Hin|Hin].
    + rewrite decide_True by (apply elem_of_cons; by right). done.
    + destruct (decide (k = k')) as [->|Hne].
      * rewrite decide_True by (apply elem_of_cons; by left).
        unfold prop at 1. by rewrite lookup_insert_eq.
      * rewrite decide_False by (rewrite elem_of_cons; intros [?|?]; done).
        unfold prop at 1. by rewrite lookup_insert_ne.
Qed.

Lemma update_options opts this h : options (result_of (update opts this h)) = opts.
Proof. rewrite update_run. cbn zeta. rewrite updateDocIfRequired_run. reflexivity. Qed.

Lemma update_live opts this h :
  cm_options (editor (result_of (update opts this h))) =
  applied (cm_options (editor this)) (config opts)
    (changedKeys (cm_options (editor this)) (config opts) (keys (config opts))).
Proof. rewrite update_run. cbn zeta. rewrite updateDocIfRequired_run. reflexivity. Qed.

(** After [update] the live options agree with the configuration. *)
Lemma update_synced opts this h : synced (result_of (update opts this h)).
Proof.
  intros k Hk. rewrite update_options in *. rewrite update_live.
  rewrite applied_prop. case_decide as Hin; [done|].
  apply elem_of_keys in Hk.
  destruct (decide (prop (cm_options (editor this)) k = prop (config opts) k))
    as [Heq|Hne]; [done|].
  destruct Hin. unfold changedKeys. apply list_elem_of_filter. done.
Qed.

Lemma constructor_run defaults o h :
  constructor defaults o h =
  let live := config o ∪ defaults in
  let h0 := h ++ [blank_doc match prop live "value" with
                            | VStr s => s
                            | _ => ""
                            end (prop live "mode")] in
  let r0 := updateDocIfRequired
              {| docs := ∅;
                 editor := {| cm_doc := length h; cm_options := live |};
                 options := o |} h0 in
  ((result_of r0).2, heap_of r0,
   [CNewCodeMirror (config o); CReplaceChild] ++ trace_of r0
   ++ [COn "blur"; COn "changes"; COn "scroll"; COn "cursor"; COn "focus";
       COn "gutterClick"; COn "beforeSelectionChange"; COn "viewportChange"]).
Proof.
  unfold constructor, newCodeMirror, bind, call, ret. cbv beta iota zeta.
  rewrite updateDocIfRequired_run. reflexivity.
Qed.





(** ** The document registry (C2, C7) *)

(** The displayed document is the registered one. *)
Lemma update_registers opts this h :
  docs (result_of (update opts this h)) !! docKey (docName opts) =
  Some (cm_doc (editor (result_of (update opts this h)))).
Proof. rewrite update_docs, update_cm_doc. apply lookup_insert_eq. Qed.



Lemma update_shows_registered opts this h d :
  doc opts = None → docs this !! docKey (docName opts) = Some d →
  cm_doc (editor (result_of (update opts this h))) = d.
Proof.
  intros Hdoc Hk. rewrite update_cm_doc. unfold shownDoc. cbn.
  by rewrite Hdoc, Hk.
Qed.











(** ** Mount, load and unmount (C8, C10) *)

Lemma cleanup_detached s h : detached (result_of (cleanup s h)).
Proof. unfold cleanup. rewrite bind_run. done. Qed.





(** C10.  The [focus] function of a render made while no instance is
    attached (before the editor is constructed, or after unmount) returns
    without calling anything; that of a render made once the instance
    exists captures its editor and calls the editor's [focus]. *)
Theorem focus_needs_editor o s :
  (instanceRef s = None →
   rcm_editor (render o s).1 = None
   ∧ ∀ h, rcm_focus (render o s).1 h = (tt, h, []))
  ∧ (∀ inst, instanceRef s = Some inst →
     rcm_editor (render o s).1 = Some (editor inst)
     ∧ ∀ h, rcm_focus (render o s).1 h = (tt, h, [CFocus]))
  ∧ (∀ h h', rcm_focus (render o (result_of (cleanup s h))).1 h' = (tt, h', [])).
Proof.
  assert (Hnone : ∀ s', instanceRef s' = None →
    rcm_editor (render o s').1 = None
    ∧ ∀ h, rcm_focus (render o s').1 h = (tt, h, [])).
  { intros s' Hi. unfold render.
    destruct (negb (externalRef s')); cbn; rewrite Hi; done. }
  split; [apply Hnone|]. split.
  - intros inst Hi. unfold render.
    destruct (negb (externalRef s)); cbn; rewrite Hi; done.
  - intros h h'. apply Hnone. apply cleanup_detached.
Qed.

Lemma focus_needs_editor_witness :
  let s := mount (plain (Some "x.js") "a") in
  let s1 := result_of (loadResolved ∅ s []) in
  rcm_focus (render (plain (Some "x.js") "a") s).1 [] = (tt, [], [])
  ∧ rcm_focus (render (plain (Some "x.js") "a") s1).1 [] = (tt, [], [CFocus]).
Proof.
  cbn zeta. split.
  - apply (proj1 (focus_needs_editor (plain (Some "x.js") "a")
                    (mount (plain (Some "x.js") "a")))). reflexivity.
  - eapply (proj1 (proj2 (focus_needs_editor (plain (Some "x.js") "a")
                            (result_of (loadResolved ∅ (mount (plain (Some "x.js") "a")) []))))).
    reflexivity.
Defined.

(** ** The default mode (C9) *)

Lemma split_nonempty sep s : split sep s ≠ [].
Proof.
  destruct s as [|c r]; cbn [split]; [done|].
  destruct (Ascii.eqb c sep); [done|]. by destruct (split sep r).
Qed.

Lemma split_app_sep sep p e :
  split sep (p ++ String sep e)%string = split sep p ++ split sep e.
Proof.
  induction p as [|c r IH]; simpl.
  - by rewrite Ascii.eqb_refl.
  - destruct (Ascii.eqb c sep); [by rewrite IH|].
    rewrite IH. pose proof (split_nonempty sep r).
    by destruct (split sep r).
Qed.

Lemma split_no_dot e : has_dot e = false → split "." e = [e].
Proof.
  induction e as [|c r IH]; cbn [has_dot split]; [done|].
  intros [Hc Hr]%orb_false_elim. rewrite Hc, (IH Hr). done.
Qed.

(** The segment after the last dot; a name without a dot is its own
    segment. *)
Lemma getDefaultMode_suffix p e :
  has_dot e = false →
  getDefaultMode (Some (p ++ String "." e)%string) = VStr e.
Proof.
  intros He. unfold getDefaultMode.
  replace (truthy (VStr (p ++ String "." e))) with true by (by destruct p).
  rewrite split_app_sep, rev_app_distr, (split_no_dot e He). done.
Qed.

Lemma getDefaultMode_no_dot s :
  has_dot s = false → getDefaultMode (Some s) = VStr s.
Proof.
  intros Hs. unfold getDefaultMode. rewrite (split_no_dot s Hs).
  by destruct (truthy (VStr s)).
Qed.






(** * Further properties of the code *)

(** ** Line endings *)

Lemma string_pair_ind (P : string → Prop) :
  P EmptyString →
  (∀ c, P (String c EmptyString)) →
  (∀ c c' r, P r → P (String c' r) → P (String c (String c' r))) →
  ∀ s, P s.
Proof.
  intros H0 H1 H2 s.
  assert (Hboth : P s ∧ ∀ c, P (String c s)).
  { induction s as [|c' r [IHr IHcr]]; [by split|]. split; [apply IHcr|].
    intros c. by apply H2. }
  apply Hboth.
Qed.

Lemma normalize_replace s : normalizeLineEndings s = replaceLineBreaks s.
Proof. by destruct s. Qed.

Lemma replace_other c r :
  Ascii.eqb c CR = false →
  replaceLineBreaks (String c r) = String c (replaceLineBreaks r).
Proof. intros Hc. cbn [replaceLineBreaks]. by rewrite Hc. Qed.

Lemma replace_cr c' r :
  replaceLineBreaks (String CR (String c' r)) =
  String LF (replaceLineBreaks (if Ascii.eqb c' LF then r else String c' r)).
Proof.
  assert (Hstep : replaceLineBreaks (String CR (String c' r)) =
                  if Ascii.eqb c' LF then String LF (replaceLineBreaks r)
                  else String LF (replaceLineBreaks (String c' r)))
    by reflexivity.
  rewrite Hstep. by destruct (Ascii.eqb c' LF).
Qed.

Lemma replace_no_cr s : has_cr (replaceLineBreaks s) = false.
Proof.
  induction s as [|c|c c' r IHr IHcr] using string_pair_ind.
  - done.
  - destruct (Ascii.eqb c CR) eqn:Hc.
    + apply Ascii.eqb_eq in Hc as ->. done.
    + rewrite (replace_other _ _ Hc). cbn [has_cr replaceLineBreaks]. by rewrite Hc.
  - destruct (Ascii.eqb c CR) eqn:Hc.
    + apply Ascii.eqb_eq in Hc as ->. rewrite replace_cr.
      cbn [has_cr]. by destruct (Ascii.eqb c' LF).
    + rewrite (replace_other _ _ Hc). cbn [has_cr]. by rewrite Hc, IHcr.
Qed.

Lemma replace_without_cr s : has_cr s = false → replaceLineBreaks s = s.
Proof.
  induction s as [|c r IH]; [done|]. cbn [has_cr].
  intros [Hc Hr]%orb_false_elim. rewrite (replace_other _ _ Hc).
  by rewrite (IH Hr).
Qed.

(** X1.  The result of [normalizeLineEndings] holds no carriage return; a
    text without one comes back as it is; so normalising twice is
    normalising once. *)
Theorem normalizeLineEndings_idempotent s :
  has_cr (normalizeLineEndings s) = false
  ∧ (has_cr s = false → normalizeLineEndings s = s)
  ∧ normalizeLineEndings (normalizeLineEndings s) = normalizeLineEndings s.
Proof.
  rewrite !normalize_replace. split; [apply replace_no_cr|]. split.
  - apply replace_without_cr.
  - apply replace_without_cr, replace_no_cr.
Qed.

Lemma normalizeLineEndings_idempotent_witness :
  normalizeLineEndings "no break here" = "no break here".
Proof.
  apply (proj1 (proj2 (normalizeLineEndings_idempotent "no break here"))).
  reflexivity.
Defined.

Lemma replace_line_app l rest :
  has_cr l = false →
  replaceLineBreaks (l ++ rest)%string = (l ++ replaceLineBreaks rest)%string.
Proof.
  induction l as [|c r IH]; [done|]. cbn [has_cr].
  intros [Hc Hr]%orb_false_elim.
  change (String c r ++ rest)%string with (String c (r ++ rest)%string).
  change (String c r ++ replaceLineBreaks rest)%string
    with (String c (r ++ replaceLineBreaks rest)%string).
  by rewrite (replace_other _ _ Hc), (IH Hr).
Qed.

Lemma join_cons sep l l' ls :
  join sep (l :: l' :: ls) = (l ++ sep ++ join sep (l' :: ls))%string.
Proof. reflexivity. Qed.

Lemma join_cr_head ls :
  Forall is_line ls →
  match join (String CR EmptyString) ls with
  | String c _ => Ascii.eqb c LF = false
  | EmptyString => True
  end.
Proof.
  destruct ls as [|l ls]; [done|]. intros [[_ Hlf] _]%Forall_cons.
  destruct ls as [|l' ls].
  - cbn. destruct l as [|c r]; [done|]. cbn in Hlf.
    by apply orb_false_elim in Hlf as [? _].
  - rewrite join_cons. destruct l as [|c r]; [done|]. cbn in *.
    by apply orb_false_elim in Hlf as [? _].
Qed.

(** X2.  Lines joined by CR LF, by a lone CR or by LF normalise to the
    same text, the lines joined by LF. *)
Theorem normalizeLineEndings_line_styles ls :
  Forall is_line ls →
  normalizeLineEndings (join CRLF ls) = join (String LF EmptyString) ls
  ∧ normalizeLineEndings (join (String CR EmptyString) ls)
    = join (String LF EmptyString) ls
  ∧ normalizeLineEndings (join (String LF EmptyString) ls)
    = join (String LF EmptyString) ls.
Proof.
  rewrite !normalize_replace.
  destruct ls as [|l ls]; [done|]. revert l.
  induction ls as [|l' ls IH]; intros l Hls.
  - apply Forall_cons in Hls as [[Hcr _] _]. cbn [join].
    by rewrite (replace_without_cr l Hcr).
  - apply Forall_cons in Hls as [[Hcr Hlf] Hrest].
    destruct (IH l' Hrest) as (Hcrlf & Hcronly & Hlfonly).
    rewrite !join_cons, !(replace_line_app l _ Hcr). split; [|split].
    + change (CRLF ++ ?x)%string with (String CR (String LF x)).
      rewrite replace_cr, Ascii.eqb_refl. by rewrite Hcrlf.
    + change (String ?a EmptyString ++ ?x)%string with (String a x).
      pose proof (join_cr_head (l' :: ls) Hrest) as Hhead.
      destruct (join (String CR EmptyString) (l' :: ls)) as [|c r] eqn:E.
      * rewrite <- Hcronly. done.
      * rewrite replace_cr, Hhead. by rewrite Hcronly.
    + change (String ?a EmptyString ++ ?x)%string with (String a x).
      rewrite replace_other by done. by rewrite Hlfonly.
Qed.

Lemma normalizeLineEndings_line_styles_witness :
  normalizeLineEndings (join CRLF ["let a"; ""; "let b"])
  = join (String LF EmptyString) ["let a"; ""; "let b"]
  ∧ normalizeLineEndings (join (String CR EmptyString) ["let a"; ""; "let b"])
    = normalizeLineEndings (join CRLF ["let a"; ""; "let b"]).
Proof.
  destruct (normalizeLineEndings_line_styles ["let a"; ""; "let b"])
    as (Hcrlf & Hcr & _).
  { repeat constructor. }
  split; [exact Hcrlf|]. by rewrite Hcr, Hcrlf.
Defined.

(** ** Configuration defaulting, continued *)




Lemma last_dot s :
  has_dot s = true →
  ∃ p e, s = (p ++ String "." e)%string ∧ has_dot e = false.
Proof.
  induction s as [|c r IH]; [done|]. cbn [has_dot].
  destruct (has_dot r) eqn:Hr.
  - intros _. destruct (IH eq_refl) as (p & e & -> & He).
    by exists (String c p), e.
  - rewrite orb_false_r. intros ->%Ascii.eqb_eq. by exists EmptyString, r.
Qed.

(** X4.  For every non-empty document name the default mode is a string
    without a dot that ends the name: the whole name when it has no dot,
    else what follows its last dot.  An absent name gives [undefined] and
    the empty name gives the empty string. *)
Theorem getDefaultMode_last_segment :
  (∀ s, s ≠ EmptyString →
     ∃ e, getDefaultMode (Some s) = VStr e ∧ has_dot e = false
          ∧ (s = e ∨ ∃ p, s = (p ++ String "." e)%string))
  ∧ getDefaultMode None = VUndefined
  ∧ getDefaultMode (Some EmptyString) = VStr EmptyString.
Proof.
  split; [|done]. intros s Hs.
  destruct (has_dot s) eqn:Hdot.
  - destruct (last_dot s Hdot) as (p & e & -> & He).
    exists e. rewrite (getDefaultMode_suffix p e He). eauto.
  - exists s. rewrite (getDefaultMode_no_dot s Hdot). eauto.
Qed.

Lemma getDefaultMode_last_segment_witness :
  ∃ e, getDefaultMode (Some "archive.tar.gz") = VStr e ∧ has_dot e = false
       ∧ ("archive.tar.gz" = e ∨ ∃ p, "archive.tar.gz" = (p ++ String "." e)%string).
Proof. apply (proj1 getDefaultMode_last_segment). discriminate. Defined.

(** ** The Tab binding *)





(** ** Updates, continued *)

(** Membership in a list of calls, through disjunctions as well. *)
Ltac calls_cases H :=
  repeat match type of H with
         | _ ∨ _ => destruct H as [H|H]
         | _ ∈ [] => apply elem_of_nil in H; destruct H
         | _ ∈ _ :: _ => apply elem_of_cons in H; destruct H as [H|H]
         | _ ∈ _ ++ _ => apply elem_of_app in H; destruct H as [H|H]
         | _ ∈ (if ?b then _ else _) => destruct b
         | _ ∈ _ <$> _ => apply list_elem_of_fmap in H; destruct H as (? & H & ?)
         end.


Lemma synced_no_delta this :
  synced this →
  changedKeys (cm_options (editor this)) (config (options this))
    (keys (config (options this))) = [].
Proof.
  intros Hs. unfold changedKeys.
  destruct (filter _ _) as [|k ks] eqn:E; [done|].
  assert (Hk : k ∈ k :: ks) by (apply elem_of_cons; by left).
  rewrite <- E in Hk. apply list_elem_of_filter in Hk as [Hne Hin].
  destruct Hne. apply Hs. by apply elem_of_keys.
Qed.

(** [update] on an instance that already holds these options, displays
    their document and has it registered: reads, and nothing else. *)
Lemma update_settled o this h :
  options this = o → synced this →
  docs this !! docKey (docName o) = Some (cm_doc (editor this)) →
  (∀ d, doc o = Some d → d = cm_doc (editor this)) →
  cursor o = None → scroll o = None →
  update o this h =
  (this, h,
   CGetDoc
   :: (if capture o then [CGetDoc; CGetCursor (cm_doc (editor this))] else [])
   ++ match value o with Some _ => [CGetValue] | None => [] end
   ++ (CGetOption <$> keys (config o))).
Proof.
  intros Ho Hs Hreg Hdoc Hcur Hscr.
  assert (Hshown : shownDoc (set_options o this) h = cm_doc (editor this)).
  { unfold shownDoc. cbn. destruct (doc o) as [d|] eqn:Hd; [by apply Hdoc|].
    by rewrite Hreg. }
  assert (Hcreate : createsDoc (set_options o this) = false).
  { unfold createsDoc. cbn. destruct (doc o); [done|].
    apply bool_decide_eq_false_2. by rewrite Hreg. }
  rewrite update_run. cbn zeta. rewrite updateDocIfRequired_run. cbn zeta.
  cbn [result_of heap_of trace_of fst snd options set_options editor docs
       cm_options cm_doc set_editor].
  rewrite Hshown, Hcreate, Hcur, Hscr.
  rewrite bool_decide_eq_false_2 by (intros Hne; by apply Hne).
  pose proof (synced_no_delta this Hs) as Hdelta. rewrite Ho in Hdelta.
  rewrite Hdelta. cbn [applied foldl fmap list_fmap app].
  rewrite insert_id by done. rewrite !app_nil_r.
  destruct this as [ds [cd live] o']. cbn in *. by subst.
Qed.

(** X6.  A second [update] with the same options (asking for no cursor
    and no scroll) leaves the instance and the store as they are and only
    reads from the editor: no document is created or swapped, no option
    is set. *)
Theorem rerender_reads_only o this h h' :
  cursor o = None → scroll o = None →
  let r1 := update o this h in
  let r2 := update o (result_of r1) h' in
  result_of r2 = result_of r1
  ∧ heap_of r2 = h'
  ∧ Forall (λ c, isGetter c = true) (trace_of r2).
Proof.
  intros Hcur Hscr. cbn zeta.
  rewrite (update_settled o (result_of (update o this h)) h').
  - split; [done|]. split; [done|]. cbn [trace_of snd].
    apply Forall_cons. split; [done|]. apply Forall_app. split.
    { destruct (capture o); by repeat constructor. }
    apply Forall_app. split.
    { destruct (value o); by repeat constructor. }
    apply Forall_fmap, Forall_forall. done.
  - apply update_options.
  - apply update_synced.
  - apply update_registers.
  - intros d Hd. rewrite update_cm_doc. unfold shownDoc. cbn. by rewrite Hd.
  - done.
  - done.
Qed.

Lemma rerender_reads_only_witness :
  let r1 := update render_b (built mounted_a) (built_heap mounted_a) in
  let r2 := update render_b (result_of r1) (heap_of r1) in
  result_of r2 = result_of r1
  ∧ heap_of r2 = heap_of r1
  ∧ Forall (λ c, isGetter c = true) (trace_of r2).
Proof. apply rerender_reads_only; reflexivity. Defined.

Lemma update_heap_run o this h :
  heap_of (update o this h) =
  let h1 := if createsDoc (set_options o this)
            then h ++ [blank_doc (default "" (value o)) (prop (config o) "mode")]
            else h in
  match cursor o with
  | Some c =>
      alter (set_cursor (if capture o
                         then cursor_of h1 (shownDoc (set_options o this) h)
                         else c))
        (shownDoc (set_options o this) h) h1
  | None => h1
  end.
Proof.
  rewrite update_run. cbn zeta. rewrite updateDocIfRequired_run. reflexivity.
Qed.

Lemma update_heap_length o this h :
  (length h ≤ length (heap_of (update o this h)) ≤ S (length h))%nat.
Proof.
  rewrite update_heap_run. cbn zeta.
  destruct (cursor o); rewrite ?length_alter;
    destruct (createsDoc _); rewrite ?length_app; cbn; lia.
Qed.

(** X7.  An [update] adds at most one document to the store, and none
    when the options pass a document or the name is registered; it leaves
    every document other than the displayed one exactly as it was. *)
Theorem update_store_frame o this h :
  let r := update o this h in
  (length h ≤ length (heap_of r) ≤ S (length h))%nat
  ∧ (is_Some (doc o) ∨ is_Some (docs this !! docKey (docName o)) →
     length (heap_of r) = length h)
  ∧ ∀ d, d ≠ cm_doc (editor (result_of r)) → is_Some (h !! d) →
         heap_of r !! d = h !! d.
Proof.
  cbn zeta. split; [|split].
  - apply update_heap_length.
  - intros Hknown. rewrite update_heap_run. cbn zeta.
    assert (Hcreate : createsDoc (set_options o this) = false).
    { unfold createsDoc. cbn. destruct (doc o) as [d|]; [done|].
      destruct Hknown as [[? ?]|[d Hd]]; [done|].
      apply bool_decide_eq_false_2. by rewrite Hd. }
    rewrite Hcreate. destruct (cursor o); by rewrite ?length_alter.
  - intros d Hne Hd. rewrite update_cm_doc in Hne.
    rewrite update_heap_run. cbn zeta.
    assert (Hgrown : (if createsDoc (set_options o this)
                      then h ++ [blank_doc (default "" (value o))
                                   (prop (config o) "mode")]
                      else h) !! d = h !! d).
    { destruct (createsDoc _); [|done].
      apply lookup_app_l. by apply lookup_lt_is_Some. }
    destruct (cursor o); [rewrite list_lookup_alter_ne by done|]; exact Hgrown.
Qed.

Lemma update_store_frame_witness :
  let r := update on_b hosted hosted_heap in
  length (heap_of (update on_a hosted hosted_heap)) = length hosted_heap
  ∧ heap_of r !! 2%nat = hosted_heap !! 2%nat.
Proof.
  cbn zeta. split.
  - apply (proj1 (proj2 (update_store_frame on_a hosted hosted_heap))).
    right. vm_compute. eauto.
  - apply (proj2 (proj2 (update_store_frame on_b hosted hosted_heap))).
    + vm_compute. congruence.
    + vm_compute. eauto.
Defined.

(** X8.  When a cursor is requested [update] focuses the editor exactly
    if the [autofocus] option it has just applied is truthy: a
    configuration that turns [autofocus] on takes effect in the same
    call. *)
Theorem update_autofocus o this h c v :
  cursor o = Some c → config o !! "autofocus" = Some v →
  (CFocus ∈ trace_of (update o this h) ↔ truthy v = true).
Proof.
  intros Hcur Hv.
  assert (Hlive : prop (cm_options (editor (result_of (update o this h))))
                    "autofocus" = v).
  { rewrite (update_synced o this h "autofocus");
      rewrite update_options; [by apply prop_Some|by eexists]. }
  rewrite update_live in Hlive.
  rewrite update_run. cbn zeta. rewrite updateDocIfRequired_run. cbn zeta.
  cbn [result_of heap_of trace_of fst snd options set_options editor docs
       cm_options cm_doc]. rewrite Hcur, Hlive.
  split.
  - intros Hc. destruct (truthy v); [done|].
    destruct (value o); destruct (scroll o); calls_cases Hc; discriminate.
  - intros ->. rewrite !elem_of_app. do 5 right. left.
    apply elem_of_cons; right. apply elem_of_app; left.
    apply list_elem_of_singleton. reflexivity.
Qed.

Lemma update_autofocus_witness :
  CFocus ∈ trace_of (update with_autofocus (built mounted_a) (built_heap mounted_a)).
Proof.
  apply (update_autofocus with_autofocus _ _ {| line := 2; ch := 0 |} (VBool true));
    reflexivity.
Defined.

(** X9.  [update] leaves alone every live option whose key the incoming
    configuration does not have: dropping a key from the configuration
    does not put the editor's option back. *)
Theorem update_keeps_unlisted_options o this h k :
  config o !! k = None →
  prop (cm_options (editor (result_of (update o this h)))) k
  = prop (cm_options (editor this)) k.
Proof.
  intros Hk. rewrite update_live, applied_prop.
  case_decide as Hin; [|done].
  apply list_elem_of_filter in Hin as [_ Hin].
  apply elem_of_keys in Hin as [v Hv]. congruence.
Qed.

Lemma update_keeps_unlisted_options_witness :
  prop (cm_options (editor (result_of
          (update mounted_a (built themed) (built_heap themed))))) "theme"
  = VStr "night".
Proof.
  rewrite (update_keeps_unlisted_options mounted_a (built themed) _ "theme");
    vm_compute; reflexivity.
Defined.



(** ** The documents of an instance are objects of the store *)







(** X18.  An absent document name and the empty name are one registry
    key: an update that names the document [""] displays the document
    shown while the name was absent. *)
Theorem absent_name_is_empty_name this h o1 o2 h2 :
  docName o1 = None → docName o2 = Some EmptyString → doc o2 = None →
  let r1 := update o1 this h in
  let r2 := update o2 (result_of r1) h2 in
  cm_doc (editor (result_of r2)) = cm_doc (editor (result_of r1))
  ∧ docs (result_of r2) = docs (result_of r1).
Proof.
  intros Hn1 Hn2 Hdoc. cbn zeta.
  assert (Hreg : docs (result_of (update o1 this h)) !! docKey (docName o2)
                 = Some (cm_doc (editor (result_of (update o1 this h))))).
  { rewrite Hn2. cbn. rewrite <- (update_registers o1 this h). by rewrite Hn1. }
  split; [by apply update_shows_registered|].
  rewrite (update_docs o2). apply insert_id.
  unfold shownDoc. cbn. by rewrite Hdoc, Hreg.
Qed.

Lemma absent_name_is_empty_name_witness :
  let r1 := update unnamed (built unnamed) (built_heap unnamed) in
  let r2 := update named_empty (result_of r1) (heap_of r1) in
  cm_doc (editor (result_of r2)) = cm_doc (editor (result_of r1))
  ∧ docs (result_of r2) = docs (result_of r1).
Proof. apply absent_name_is_empty_name; reflexivity. Defined.

(** ** The handlers after an update *)

Lemma ownSetValue_spec changes :
  bool_decide (length changes = 1%nat)
  && match changes with
     | c :: _ => bool_decide (origin c = Some "setValue")
     | [] => false
     end
  = ownSetValue changes.
Proof. by destruct changes as [|c [|c' cs]]. Qed.

(** X13.  Once [update] has run on options [o], every handler answers
    with the callbacks of [o], not with earlier ones: each calls its own
    callback, once, when [o] has it and nothing otherwise; [onChange]
    gets the text and the document the editor displays now, and is
    skipped for the adapter's own [setValue] and when [o] is read-only.
    No handler writes to the store. *)
Theorem handlers_use_latest_options o this h h' changes lineNumber gutter data
    start stop :
  let inst := result_of (update o this h) in
  let shown := cm_doc (editor inst) in
  handleBlur inst h'
  = (tt, h', match onBlur o with Some cb => [UOnBlur cb] | None => [] end)
  ∧ handleChanges inst changes h'
    = (tt, h',
       if ownSetValue changes || truthy (prop (config o) "readOnly") then []
       else match onChange o with
            | Some cb => [CGetValue; CGetDoc;
                          UOnChange cb (text_of h' shown) (docName o) changes shown]
            | None => []
            end)
  ∧ handleCursor inst h'
    = (tt, h',
       match onCursor o with
       | Some cb => [CGetDoc; CGetCursor shown; UOnCursor cb (cursor_of h' shown)]
       | None => []
       end)
  ∧ handleFocus inst h'
    = (tt, h', match onFocus o with Some cb => [UOnFocus cb] | None => [] end)
  ∧ handleGutterClick inst lineNumber gutter h'
    = (tt, h',
       match onGutterClick o with
       | Some cb => [UOnGutterClick cb lineNumber gutter]
       | None => []
       end)
  ∧ handleScroll inst h'
    = (tt, h',
       match onScroll o with
       | Some cb => [CGetScrollInfo; UOnScroll cb]
       | None => []
       end)
  ∧ handleSelection inst data h'
    = (tt, h', match onSelection o with Some cb => [UOnSelection cb data] | None => [] end)
  ∧ handleViewportChange inst start stop h'
    = (tt, h',
       match onViewportChange o with
       | Some cb => [UOnViewportChange cb start stop]
       | None => []
       end).
Proof.
  cbn zeta. pose proof (update_options o this h) as Ho.
  set (inst := result_of (update o this h)) in *.
  unfold handleBlur, handleChanges, handleCursor, handleFocus, handleGutterClick,
    handleScroll, handleSelection, handleViewportChange.
  rewrite ownSetValue_spec, !Ho.
  repeat split.
  - by destruct (onBlur o).
  - destruct (ownSetValue changes); [done|].
    destruct (truthy _); [done|]. by destruct (onChange o).
  - by destruct (onCursor o).
  - by destruct (onFocus o).
  - by destruct (onGutterClick o).
  - by destruct (onScroll o).
  - by destruct (onSelection o).
  - by destruct (onViewportChange o).
Qed.

(** ** The life cycle, continued *)

Lemma step_render_waiting defaults o s h :
  instanceRef s = None →
  step defaults (Render o) s h =
  ({| initialOptionsRef := resolve o; instanceRef := None;
      externalRef := true;
      nodePromiseRef := if externalRef s then nodePromiseRef s else true;
      isMounted := isMounted s; loadPending := loadPending s |}, h, []).
Proof.
  intros Hi. cbn [step]. unfold layoutEffect, render.
  destruct (externalRef s) eqn:He; cbn; rewrite Hi; cbn; by rewrite ?He.
Qed.

Lemma step_render_attached defaults o s h inst :
  instanceRef s = Some inst →
  step defaults (Render o) s h =
  ({| initialOptionsRef := initialOptionsRef s;
      instanceRef := Some (result_of (update (resolve o) inst h));
      externalRef := true;
      nodePromiseRef := if externalRef s then nodePromiseRef s else true;
      isMounted := isMounted s; loadPending := loadPending s |},
   heap_of (update (resolve o) inst h),
   trace_of (update (resolve o) inst h)).
Proof.
  intros Hi. cbn [step]. unfold layoutEffect, render.
  destruct (externalRef s) eqn:He; cbn; rewrite Hi, bind_run; cbn;
    by rewrite ?He, ?app_nil_r.
Qed.



Lemma calls_not_constructions (tr : list Call) :
  (∀ c, c ∈ tr → isNewCodeMirror c = false) →
  List.filter isNewCodeMirror tr = [].
Proof.
  induction tr as [|c tr IH]; [done|]. intros Hall. cbn.
  rewrite (Hall c) by (apply elem_of_cons; by left).
  apply IH. intros c' Hc'. apply Hall. apply elem_of_cons. by right.
Qed.

Lemma update_constructs_nothing o this h :
  List.filter isNewCodeMirror (trace_of (update o this h)) = [].
Proof.
  apply calls_not_constructions. intros c.
  rewrite update_run. cbn zeta. rewrite updateDocIfRequired_run. cbn zeta.
  cbn [trace_of snd]. intros Hc.
  destruct (value o); destruct (cursor o); destruct (scroll o);
    calls_cases Hc; by subst.
Qed.

Lemma constructor_constructs_once defaults o h :
  length (List.filter isNewCodeMirror (trace_of (constructor defaults o h))) = 1%nat.
Proof.
  rewrite constructor_run. cbn zeta. rewrite updateDocIfRequired_run. cbn zeta.
  cbn [trace_of snd]. cbn [app List.filter isNewCodeMirror].
  rewrite List.filter_app.
  rewrite (calls_not_constructions (_ ++ CGetDoc :: _)); [done|].
  intros c Hc. calls_cases Hc; by subst.
Qed.

Lemma step_constructions defaults ev s h :
  let r := step defaults ev s h in
  (length (List.filter isNewCodeMirror (trace_of r))
   ≤ if loadPending s then 1 else 0)%nat
  ∧ (length (List.filter isNewCodeMirror (trace_of r)) = 1%nat →
     loadPending (result_of r) = false)
  ∧ (loadPending s = false → loadPending (result_of r) = false).
Proof.
  cbn zeta. destruct ev as [o| |].
  - destruct (instanceRef s) as [inst|] eqn:Hi.
    + rewrite (step_render_attached defaults o s h inst Hi).
      cbn [result_of trace_of fst snd loadPending].
      rewrite update_constructs_nothing. cbn [length].
      split; [lia|]. split; [discriminate|done].
    + rewrite (step_render_waiting defaults o s h Hi).
      cbn [result_of trace_of fst snd loadPending List.filter length].
      split; [lia|]. split; [discriminate|done].
  - cbn [step]. unfold loadResolved. destruct (loadPending s) eqn:Hp.
    + rewrite bind_run. cbn [result_of heap_of trace_of fst snd ret loadPending].
      rewrite app_nil_r. split; [|done].
      destruct (isMounted s); [|cbn; lia].
      rewrite bind_run. cbn [result_of heap_of trace_of fst snd ret].
      rewrite app_nil_r. by rewrite constructor_constructs_once.
    + cbn [ret result_of trace_of fst snd List.filter length].
      split; [lia|]. split; [discriminate|done].
  - cbn [step]. unfold cleanup. rewrite bind_run.
    cbn [result_of heap_of trace_of fst snd ret loadPending].
    rewrite app_nil_r.
    assert (Hnone : List.filter isNewCodeMirror
                      (trace_of (match instanceRef s with
                                 | Some inst => dispose inst
                                 | None => ret tt
                                 end h)) = []).
    { by destruct (instanceRef s). }
    rewrite Hnone. cbn [length].
    split; [lia|]. split; [discriminate|done].
Qed.

(** X15.  Whatever the renders, load completions and unmounts, one
    mounted component constructs at most one editor, and none once the
    completion of its load has run. *)
Theorem at_most_one_editor defaults evs s h :
  (length (List.filter isNewCodeMirror (trace_of (run defaults evs s h)))
   ≤ if loadPending s then 1 else 0)%nat.
Proof.
  revert s h. induction evs as [|ev evs IH]; intros s h.
  { cbn. destruct (loadPending s); lia. }
  cbn [run]. rewrite bind_run. cbn [trace_of snd].
  rewrite List.filter_app, length_app.
  destruct (step_constructions defaults ev s h) as (Hle & Hone & Hstay).
  cbn zeta in *.
  fold (trace_of (step defaults ev s h)).
  specialize (IH (result_of (step defaults ev s h)) (heap_of (step defaults ev s h))).
  fold (trace_of (run defaults evs (result_of (step defaults ev s h))
                    (heap_of (step defaults ev s h)))).
  destruct (loadPending s) eqn:Hp.
  - destruct (length (List.filter isNewCodeMirror (trace_of (step defaults ev s h))))
      as [|[|n]] eqn:Hn; [|rewrite (Hone eq_refl) in IH|]; destruct (loadPending _); lia.
  - rewrite (Hstay eq_refl) in IH. lia.
Qed.




